(** * PaddockMap: the feature-processing and project-aggregation pipeline

    A shallow embedding of the data transforms of
    [src/components/PaddockMap.vue]: [project_ids], [project_colours],
    [project_summary] and [processFeatures], together with the fragment of
    JavaScript semantics they rely on (strict equality, the [Set]
    membership test, truthiness, [ToString], [+], property keys).

    Map rendering ([onMounted], [findCentre]) is not modelled. *)

From stdpp Require Import gmap strings list fin_maps pretty.

Open Scope Z_scope.

(** ** JavaScript values

    Property values of a GeoJSON feature are typed [any].  The universe
    below holds the primitive values a JSON document can carry, plus
    [undefined] (what reading an absent property yields) and [NaN] (what
    [+] yields on [undefined]).  Numbers are mathematical integers: this is
    exact for integral values whose sums stay inside the safe-integer
    range; fractions, infinities and negative zero are left out, and so are
    nested objects and arrays. *)

Inductive JsValue : Type :=
  | JUndefined
  | JNull
  | JBool (b : bool)
  | JNaN
  | JNum (z : Z)
  | JStr (s : string).

#[global] Instance JsValue_eq_dec : EqDecision JsValue.
Proof. solve_decision. Defined.

#[global] Instance JsValue_inhabited : Inhabited JsValue := populate JUndefined.

Module Js.

(** [a === b]: same type and same value; [NaN] differs from itself. *)
Definition strict_eq (a b : JsValue) : bool :=
  match a, b with
  | JNaN, _ | _, JNaN => false
  | _, _ => bool_decide (a = b)
  end.

(** SameValueZero, the membership test of [Set]: like [===] except that
    [NaN] equals itself (there is no negative zero in this universe). *)
Definition same_value_zero (a b : JsValue) : bool := bool_decide (a = b).

(** ToBoolean. *)
Definition truthy (v : JsValue) : bool :=
  match v with
  | JUndefined | JNull | JNaN => false
  | JBool b => b
  | JNum z => negb (Z.eqb z 0)
  | JStr s => negb (String.eqb s "")
  end.

(** [a || b]. *)
Definition or (a b : JsValue) : JsValue := if truthy a then a else b.

(** ToString, as applied by template literals and by property keys.  A
    number is printed in decimal notation, which is what JavaScript does
    for integers below 10^21. *)
Definition to_string (v : JsValue) : string :=
  match v with
  | JUndefined => "undefined"
  | JNull => "null"
  | JBool true => "true"
  | JBool false => "false"
  | JNaN => "NaN"
  | JNum z => pretty z
  | JStr s => s
  end.

(** ToNumber on the primitives that are not strings; [None] is [NaN].
    [add] never calls it on a string. *)
Definition to_number (v : JsValue) : option Z :=
  match v with
  | JUndefined | JNaN | JStr _ => None
  | JNull => Some 0
  | JBool b => Some (if b then 1 else 0)
  | JNum z => Some z
  end.

(** [a + b]: concatenation as soon as one operand is a string, numeric
    addition otherwise. *)
Definition add (a b : JsValue) : JsValue :=
  match a, b with
  | JStr _, _ | _, JStr _ => JStr (to_string a +:+ to_string b)
  | _, _ =>
      match to_number a, to_number b with
      | Some x, Some y => JNum (x + y)
      | _, _ => JNaN
      end
  end.

(** [new Set(iterable)] followed by [Array.from]: values are added one
    by one, a value already present (SameValueZero) is skipped, and
    iteration follows insertion order. *)
Definition set_add (s : list JsValue) (v : JsValue) : list JsValue :=
  if existsb (same_value_zero v) s then s else s ++ [v].

Definition set_from (l : list JsValue) : list JsValue :=
  fold_left set_add l [].

(** A plain object used as a dictionary.  Keys go through ToPropertyKey,
    which is ToString on this universe; reading a key that is not there
    yields [undefined] (inherited members of [Object.prototype] are not
    modelled). *)
Definition get (o : gmap string JsValue) (k : string) : JsValue :=
  default JUndefined (o !! k).

Definition get_computed (o : gmap string JsValue) (k : JsValue) : JsValue :=
  get o (to_string k).

(** [Object.fromEntries]: entries are defined in order, a later entry
    replacing an earlier one with the same key. *)
Definition from_entries (es : list (JsValue * JsValue)) : gmap string JsValue :=
  fold_left (λ o e, <[to_string e.1 := e.2]> o) es ∅.

(** [arr[i]] on an array of strings. *)
Definition index (arr : list string) (i : nat) : JsValue :=
  match arr !! i with
  | Some s => JStr s
  | None => JUndefined
  end.

End Js.

(** ** GeoJSON data

    A feature carries a geometry and a [properties] member that is either
    [null] or an object.  [Geometry] stands for the geometry and any other
    top-level member ([type], [id], [bbox]): the transforms never look
    inside it. *)

Record Feature (Geometry : Type) : Type := mkFeature {
  geometry : Geometry;
  properties : option (gmap string JsValue);
}.
Arguments mkFeature {Geometry} _ _.
Arguments geometry {Geometry} _.
Arguments properties {Geometry} _.

(** [props.geoJSON.features], the only member of the collection in use. *)
Abbreviation FeatureCollection Geometry := (list (Feature Geometry)).

Record ProjectSummary : Type := mkSummary {
  name : JsValue;
  colour : JsValue;
  count : nat;
  totalArea : JsValue;
  owner : JsValue;
}.

#[global] Instance ProjectSummary_eq_dec : EqDecision ProjectSummary.
Proof. solve_decision. Defined.

(** ** The pipeline *)

(** The palette, [const colours] (lines 7-13). *)
Definition colours : list string :=
  [ "#E6C229"; "#F17105"; "#D11149"; "#6610F2"; "#1A8FE3" ].

(** The initial value of [let colour] in [processFeatures] (line 64). *)
Definition fallback_colour : string := "#888888".

Section Pipeline.
Context {Geometry : Type}.
Implicit Types (f : Feature Geometry) (fc : FeatureCollection Geometry).

(** [feature.properties?.key] *)
Definition prop f (key : string) : JsValue :=
  match properties f with
  | Some o => Js.get o key
  | None => JUndefined
  end.

(** [const project_ids] (lines 19-24): read [Project__Name] off every
    feature, drop the values that are [=== null], build a [Set] and list
    it. *)
Definition project_ids fc : list JsValue :=
  Js.set_from
    (filter (λ v, Js.strict_eq v JNull = false)
            (map (λ f, prop f "Project__Name") fc)).

(** The entries [[project, colours[index % colours.length]]] (line 27). *)
Definition colour_entries (ids : list JsValue) : list (JsValue * JsValue) :=
  imap (λ index project,
          (project, Js.index colours (index mod length colours)%nat)) ids.

(** [const project_colours] (lines 26-28). *)
Definition project_colours fc : gmap string JsValue :=
  Js.from_entries (colour_entries (project_ids fc)).

(** [const project_features] (line 33). *)
Definition project_features fc (project_id : JsValue) : list (Feature Geometry) :=
  filter (λ f, Js.strict_eq (prop f "Project__Name") project_id = true) fc.

(** [const totalArea] (lines 35-37): a [reduce] from 0 with
    [sum + (feature.properties?.area_acres || 0)]. *)
Definition total_area (fs : list (Feature Geometry)) : JsValue :=
  fold_left (λ sum f, Js.add sum (Js.or (prop f "area_acres") (JNum 0)))
            fs (JNum 0).

(** The record returned for one project (lines 39-45);
    [project_features[0]?.properties?.owner] is [undefined] when no
    feature matches. *)
Definition summarise fc (project_id : JsValue) : ProjectSummary :=
  let pf := project_features fc project_id in
  {| name := project_id;
     colour := Js.get_computed (project_colours fc) project_id;
     count := length pf;
     totalArea := total_area pf;
     owner := match pf !! 0%nat with
              | Some f => prop f "owner"
              | None => JUndefined
              end |}.

(** [const project_summary] (lines 30-46). *)
Definition project_summary fc : list ProjectSummary :=
  map (summarise fc) (project_ids fc).

(** [colour] (lines 64-67): the fallback unless [Project__Name] is
    truthy, in which case the colour map is read. *)
Definition fill_colour (project_colours : gmap string JsValue) f : JsValue :=
  if Js.truthy (prop f "Project__Name")
  then Js.get_computed project_colours (prop f "Project__Name")
  else JStr fallback_colour.

(** The conditional operand of the description (line 71). *)
Definition project_line f : string :=
  if Js.truthy (prop f "Project__Name")
  then "<br/>Project: " +:+ Js.to_string (prop f "Project__Name")
  else "".

(** [const description] (lines 68-72). *)
Definition description f : string :=
  "<strong>" +:+ Js.to_string (prop f "name") +:+ "</strong>" +:+
  "<p>Owner: " +:+ Js.to_string (prop f "owner") +:+
  "<br/>Area: " +:+ Js.to_string (prop f "area_acres") +:+ " acres" +:+
  project_line f +:+
  "</p>".

(** One step of the [map] in [processFeatures]: spread the feature,
    spread its properties ([...null] adds nothing) and set the two
    derived members. *)
Definition process_feature (project_colours : gmap string JsValue) f
  : Feature Geometry :=
  {| geometry := geometry f;
     properties :=
       Some (<["description" := JStr (description f)]>
               (<["fillColor" := fill_colour project_colours f]>
                  (default ∅ (properties f)))) |}.

(** [function processFeatures] (lines 59-84). *)
Definition processFeatures fc (project_colours : gmap string JsValue)
  : FeatureCollection Geometry :=
  map (process_feature project_colours) fc.

(** [const processedFeatures] (line 48). *)
Definition processedFeatures fc : FeatureCollection Geometry :=
  processFeatures fc (project_colours fc).

End Pipeline.

(** ** Vocabulary of the specification

    These definitions follow the wording of the specification, not the
    code; the theorems below compare the two. *)

(** Distinct values in first-appearance order. *)
Fixpoint first_occurrences (l : list JsValue) : list JsValue :=
  match l with
  | [] => []
  | x :: r => x :: filter (λ y, y ≠ x) (first_occurrences r)
  end.

Section Vocabulary.
Context {Geometry : Type}.
Implicit Types (f : Feature Geometry) (fc : FeatureCollection Geometry).

(** The member [key] as the feature itself holds it, if it does. *)
Definition own_prop f (key : string) : option JsValue :=
  properties f ≫= (λ o, o !! key).

(** "Project__Name is present and non-null". *)
Definition has_project f : bool :=
  match own_prop f "Project__Name" with
  | None | Some JUndefined | Some JNull => false
  | Some _ => true
  end.

(** "[Project__Name] strictly equals [project_id]": the very same value,
    with no trimming and no change of case; [NaN] strictly equals
    nothing. *)
Definition names_project f (project_id : JsValue) : Prop :=
  prop f "Project__Name" = project_id ∧ project_id ≠ JNaN.

#[global] Instance names_project_dec f project_id :
  Decision (names_project f project_id).
Proof. unfold names_project. apply _. Defined.


(** The two derived members of an enriched feature. *)
Definition derived f : JsValue * JsValue :=
  (prop f "fillColor", prop f "description").

(** Every member of [properties] but the two derived ones. *)
Definition other_props f : gmap string JsValue :=
  delete "description" (delete "fillColor" (default ∅ (properties f))).

(** The text standing for a member in the description: the literal
    "undefined" when the member is missing, its raw value otherwise. *)
Definition shown f (key : string) : string :=
  match own_prop f key with
  | None => "undefined"
  | Some v => Js.to_string v
  end.
End Vocabulary.

Definition bolded (s : string) : string := "<strong>" +:+ s +:+ "</strong>".
Definition owner_line (s : string) : string := "<p>Owner: " +:+ s.
Definition area_line (s : string) : string := "<br/>Area: " +:+ s +:+ " acres".
Definition project_text (s : string) : string := "<br/>Project: " +:+ s.


(** The text that stands for a member in a description: the literal
    "undefined" when the member is missing, a string as it is, an integer
    that a double holds exactly in decimal notation (nothing is said of
    other numbers). *)
Definition renders (member : option JsValue) (text : string) : Prop :=
  match member with
  | None | Some JUndefined => text = "undefined"
  | Some JNull => text = "null"
  | Some (JBool true) => text = "true"
  | Some (JBool false) => text = "false"
  | Some JNaN => text = "NaN"
  | Some (JNum z) => - 2 ^ 53 ≤ z ≤ 2 ^ 53 → text = pretty z
  | Some (JStr s) => text = s
  end.

(** The project part of a description: the project line when
    [Project__Name] is truthy (not missing, not [null], not the empty
    string), and nothing otherwise. *)
Definition project_part (member : option JsValue) (text : string) : Prop :=
  match member with
  | None | Some JUndefined | Some JNull | Some JNaN
  | Some (JBool false) | Some (JNum 0) | Some (JStr "") => text = ""
  | Some v => ∃ t, renders (Some v) t ∧ text = project_text t
  end.

(** ** Sample collections *)

(** An object literal. *)
Definition obj (members : list (string * JsValue)) : gmap string JsValue :=
  list_to_map members.

Definition paddock (members : list (string * JsValue)) : Feature unit :=
  mkFeature tt (Some (obj members)).

(** The four-feature collection of the specification's worked example. *)
Definition example_input : FeatureCollection unit :=
  [ paddock [("Project__Name", JStr "A"); ("area_acres", JNum 10); ("owner", JStr "X")];
    paddock [("Project__Name", JStr "A"); ("area_acres", JNum 5); ("owner", JStr "Y")];
    paddock [("Project__Name", JStr "B"); ("area_acres", JNum 3); ("owner", JStr "Z")];
    paddock [("area_acres", JNum 1)] ].

(** One feature with a [null] project, one with none at all. *)
Definition unassigned_input : FeatureCollection unit :=
  [ paddock [("Project__Name", JNull); ("area_acres", JNum 2)];
    paddock [("area_acres", JNum 1)] ].

(** A project called "undefined" next to a feature without project. *)
Definition shadowed_input : FeatureCollection unit :=
  [ paddock [("Project__Name", JStr "undefined")];
    paddock [] ].

(** A feature whose project is the empty string. *)
Definition blank_project : Feature unit :=
  paddock [("Project__Name", JStr ""); ("name", JStr "North"); ("area_acres", JNum 7)].

(** ** Further vocabulary *)

Section MoreVocabulary.
Context {Geometry : Type}.
Implicit Types (f : Feature Geometry) (fc : FeatureCollection Geometry).

(** A feature that some summary counts: its [Project__Name] is neither
    [null] (dropped by the extractor) nor [NaN] (never [===] to itself). *)
Definition counted f : bool :=
  match prop f "Project__Name" with
  | JNull | JNaN => false
  | _ => true
  end.
End MoreVocabulary.

Section NameVocabulary.
Context {Geometry : Type}.
Implicit Types (f : Feature Geometry).

(** [Project__Name] is typed as the data model has it (a string, [null]
    or missing) and is not the string "undefined", which would share its
    property key with a missing name. *)
Definition plain_name f : bool :=
  match prop f "Project__Name" with
  | JStr s => negb (String.eqb s "undefined")
  | JNull | JUndefined => true
  | _ => false
  end.
End NameVocabulary.

(** Eight paddocks, of seven projects. *)
Definition seven_projects : FeatureCollection unit :=
  [ paddock [("Project__Name", JStr "P0")];
    paddock [("Project__Name", JStr "P1")];
    paddock [("Project__Name", JStr "P2")];
    paddock [("Project__Name", JStr "P1"); ("owner", JStr "late")];
    paddock [("Project__Name", JStr "P3")];
    paddock [("Project__Name", JStr "P4")];
    paddock [("Project__Name", JStr "P5")];
    paddock [("Project__Name", JStr "P6")] ].

Section AreaVocabulary.
Context {Geometry : Type}.
Implicit Types (f : Feature Geometry).

(** [area_acres] is a non-empty string: [+] turns the total into text. *)
Definition text_area f : bool :=
  match prop f "area_acres" with
  | JStr s => negb (String.eqb s "")
  | _ => false
  end.
End AreaVocabulary.

(** A total of text and number: "12" acres, then 5. *)
Definition text_area_input : FeatureCollection unit :=
  [ paddock [("area_acres", JStr "12")];
    paddock [("area_acres", JNum 5)] ].

(** ** The caller: [onMounted] *)

(** A GeoJSON polygon, [(feature.geometry as Polygon)]: its rings, the
    outer one first.  Positions are kept abstract, the code below only
    moves them around. *)
Record Polygon (Position : Type) : Type := mkPolygon {
  coordinates : list (list Position);
}.
Arguments mkPolygon {Position} _.
Arguments coordinates {Position} _.

Section Mounted.
Context {Position : Type}.

(** What the callback of [flatMap] contributes (line 87): the positions
    of [coordinates[0]]; when the polygon has no ring the callback returns
    [undefined], which [flatMap] keeps as a single element ([None]). *)
Definition outer_ring_items (g : Polygon Position) : list (option Position) :=
  match coordinates g !! 0%nat with
  | Some ring => Some <$> ring
  | None => [None]
  end.

(** [features.flatMap(feature => (feature.geometry as Polygon).coordinates[0])]
    (lines 86-88). *)
Definition mounted_coordinates (features : FeatureCollection (Polygon Position))
  : list (option Position) :=
  features ≫= (λ feature, outer_ring_items (geometry feature)).
End Mounted.

(** * Properties *)

(** ** The JavaScript fragment *)

Section JsFacts.
Implicit Types (v w : JsValue) (s acc l : list JsValue).

Lemma strict_eq_true v w : Js.strict_eq v w = true ↔ v = w ∧ v ≠ JNaN.
Proof.
  unfold Js.strict_eq.
  destruct v, w; simpl; rewrite ?bool_decide_eq_true;
    split; try (intros [? ?]); try split; congruence.
Qed.

Lemma strict_eq_null_false v : Js.strict_eq v JNull = false ↔ v ≠ JNull.
Proof.
  destruct v; simpl; rewrite ?bool_decide_eq_false; split; congruence.
Qed.

Lemma set_mem_spec v s : existsb (Js.same_value_zero v) s = true ↔ v ∈ s.
Proof.
  rewrite existsb_exists. unfold Js.same_value_zero. split.
  - intros (w & Hw & Heq). apply bool_decide_eq_true in Heq as ->.
    by apply list_elem_of_In.
  - intros Hv. exists v. split; [by apply list_elem_of_In|].
    by apply bool_decide_eq_true.
Qed.

Lemma set_add_in v s : v ∈ s → Js.set_add s v = s.
Proof.
  intros Hv. unfold Js.set_add.
  by apply set_mem_spec in Hv as ->.
Qed.

Lemma set_add_notin v s : v ∉ s → Js.set_add s v = s ++ [v].
Proof.
  intros Hv. unfold Js.set_add.
  destruct (existsb _ s) eqn:E; [|done].
  by apply set_mem_spec in E.
Qed.

(** Decimal notation never prints the empty string. *)
Lemma pretty_N_go_nonempty (x : N) (s : string) :
  s ≠ "" → pretty_N_go x s ≠ "".
Proof.
  revert s. induction (N.lt_wf_0 x) as [x _ IH]; intros s Hs.
  destruct (decide (x = 0%N)) as [->|Hx]; [by rewrite pretty_N_go_0|].
  rewrite pretty_N_go_step by lia. apply IH; [|done].
  apply N.div_lt; lia.
Qed.

Lemma pretty_positive_nonempty (p : positive) : pretty p ≠ "".
Proof.
  unfold pretty, pretty_positive, pretty, pretty_N.
  rewrite decide_False by done.
  rewrite pretty_N_go_step by lia. by apply pretty_N_go_nonempty.
Qed.

Lemma pretty_Z_nonempty (z : Z) : pretty z ≠ "".
Proof.
  destruct z as [|p|p]; unfold pretty, pretty_Z; [done| |done].
  apply pretty_positive_nonempty.
Qed.

(** Only the empty string is turned into the empty property key. *)
Lemma to_string_empty (v : JsValue) : Js.to_string v = "" → v = JStr "".
Proof.
  destruct v as [| |[]| |z|s]; simpl; try discriminate.
  - by intros ?%pretty_Z_nonempty.
  - by intros ->.
Qed.
End JsFacts.

(** ** [Set] construction refines [first_occurrences] *)

Section SetFacts.
Implicit Types (v w : JsValue) (s acc l : list JsValue).

Lemma filter_id (P : JsValue → Prop) `{!∀ x, Decision (P x)} l :
  (∀ x, x ∈ l → P x) → filter P l = l.
Proof.
  induction l as [|x r IH]; intros HP; [done|].
  rewrite filter_cons_True by (apply HP; left).
  f_equal. apply IH. intros y Hy. apply HP. by right.
Qed.

Lemma set_fold_first_occurrences l acc :
  fold_left Js.set_add l acc
  = acc ++ filter (λ y, y ∉ acc) (first_occurrences l).
Proof.
  revert acc. induction l as [|x r IH]; intros acc; simpl.
  - by rewrite app_nil_r.
  - rewrite IH. destruct (decide (x ∈ acc)) as [Hin|Hout].
    + rewrite (set_add_in _ _ Hin), filter_cons_False by (intros Hn; exact (Hn Hin)).
      f_equal. rewrite list_filter_filter.
      apply list_filter_iff. intros y. simpl. split; [|tauto].
      intros Hy. split; [done|]. by intros ->.
    + rewrite (set_add_notin _ _ Hout), filter_cons_True by done.
      rewrite <- app_assoc. simpl. do 2 f_equal.
      rewrite list_filter_filter.
      apply list_filter_iff. intros y.
      rewrite not_elem_of_app, list_elem_of_singleton. tauto.
Qed.

Lemma set_from_first_occurrences l : Js.set_from l = first_occurrences l.
Proof.
  unfold Js.set_from. rewrite set_fold_first_occurrences. simpl.
  apply filter_id. intros y _. apply not_elem_of_nil.
Qed.

Lemma elem_of_first_occurrences v l : v ∈ first_occurrences l ↔ v ∈ l.
Proof.
  induction l as [|x r IH]; simpl; [done|].
  rewrite !elem_of_cons, list_elem_of_filter, IH.
  destruct (decide (v = x)); tauto.
Qed.

Lemma NoDup_first_occurrences l : NoDup (first_occurrences l).
Proof.
  induction l as [|x r IH]; simpl; [constructor|].
  constructor.
  - rewrite list_elem_of_filter. tauto.
  - by apply NoDup_filter.
Qed.
End SetFacts.

(** ** Objects built by [Object.fromEntries] *)

Section ObjectFacts.
Implicit Types (es : list (JsValue * JsValue)) (e : JsValue * JsValue).

Lemma from_entries_snoc es e :
  Js.from_entries (es ++ [e]) = <[Js.to_string e.1 := e.2]> (Js.from_entries es).
Proof. unfold Js.from_entries. by rewrite fold_left_app. Qed.

Lemma from_entries_lookup_snoc es e k :
  Js.from_entries (es ++ [e]) !! k
  = if decide (Js.to_string e.1 = k) then Some e.2 else Js.from_entries es !! k.
Proof. by rewrite from_entries_snoc, lookup_insert. Qed.

(** Whatever a key holds was put there by an entry with that key. *)
Lemma from_entries_lookup_Some es k x :
  Js.from_entries es !! k = Some x →
  ∃ e, e ∈ es ∧ Js.to_string e.1 = k ∧ e.2 = x.
Proof.
  induction es as [|e es IH] using rev_ind.
  - unfold Js.from_entries. simpl. by rewrite lookup_empty.
  - rewrite from_entries_lookup_snoc. case_decide as Hk.
    + intros [= <-]. exists e. rewrite elem_of_app, list_elem_of_singleton. auto.
    + intros (e' & ? & ? & ?)%IH. exists e'. rewrite elem_of_app. auto.
Qed.

(** Every key of an entry is a key of the object. *)
Lemma from_entries_is_Some es e :
  e ∈ es → is_Some (Js.from_entries es !! Js.to_string e.1).
Proof.
  induction es as [|e' es IH] using rev_ind; [by intros ?%elem_of_nil|].
  rewrite elem_of_app, list_elem_of_singleton, from_entries_lookup_snoc.
  intros [Hin| ->].
  - case_decide; [by eexists | by apply IH].
  - rewrite decide_True by done. by eexists.
Qed.

(** An entry whose key no other entry shares keeps its value. *)
Lemma from_entries_lookup_unique (es : list (JsValue * JsValue)) i e :
  es !! i = Some e →
  (∀ j e', es !! j = Some e' → Js.to_string e'.1 = Js.to_string e.1 → j = i) →
  Js.from_entries es !! Js.to_string e.1 = Some e.2.
Proof.
  induction es as [|e' es IH] using rev_ind; [done|].
  intros Hi Huniq. rewrite from_entries_lookup_snoc.
  assert ((es ++ [e']) !! length es = Some e') as Hlast
    by (by rewrite lookup_app_r, Nat.sub_diag by lia).
  case_decide as Hk.
  - rewrite <- (Huniq _ _ Hlast Hk) in Hi. congruence.
  - assert (i < length es)%nat as Hlt.
    { pose proof (lookup_lt_Some _ _ _ Hi) as Hlen.
      rewrite length_app in Hlen. simpl in Hlen.
      destruct (decide (i = length es)) as [->|]; [|lia].
      congruence. }
    rewrite lookup_app_l in Hi by done. apply IH; [done|].
    intros j e'' Hj. apply Huniq.
    rewrite lookup_app_l; [done|]. by eapply lookup_lt_Some.
Qed.
End ObjectFacts.

Section PaletteFacts.

Lemma palette_index (i : nat) :
  ∃ c, colours !! (i mod length colours)%nat = Some c
       ∧ Js.index colours (i mod length colours)%nat = JStr c.
Proof.
  assert (i mod length colours < length colours)%nat as Hlt
    by (apply Nat.mod_upper_bound; discriminate).
  destruct (lookup_lt_is_Some_2 _ _ Hlt) as [c Hc].
  exists c. unfold Js.index. by rewrite Hc.
Qed.

Lemma colour_entries_lookup (ids : list JsValue) (i : nat) :
  colour_entries ids !! i
  = (λ p, (p, Js.index colours (i mod length colours)%nat)) <$> ids !! i.
Proof. unfold colour_entries. apply list_lookup_imap. Qed.

End PaletteFacts.

(** ** ProjectExtractor: [project_ids] *)

Section Extractor.
Context {Geometry : Type}.
Implicit Types (f : Feature Geometry) (fc : FeatureCollection Geometry).

(** The extractor keeps the first occurrence of every value that is not
    [null], in input order. *)
Lemma project_ids_first_occurrences fc :
  project_ids fc
  = first_occurrences
      (filter (λ v, v ≠ JNull) (map (λ f, prop f "Project__Name") fc)).
Proof.
  unfold project_ids. rewrite set_from_first_occurrences. f_equal.
  apply list_filter_iff. intros v. apply strict_eq_null_false.
Qed.

Lemma elem_of_project_ids fc v :
  v ∈ project_ids fc ↔ v ≠ JNull ∧ ∃ f, f ∈ fc ∧ prop f "Project__Name" = v.
Proof.
  rewrite project_ids_first_occurrences, elem_of_first_occurrences.
  rewrite list_elem_of_filter, list_elem_of_fmap.
  split; intros [Hv (f & H1 & H2)]; (split; [done|]); exists f; auto.
Qed.

Lemma NoDup_project_ids fc : NoDup (project_ids fc).
Proof. rewrite project_ids_first_occurrences. apply NoDup_first_occurrences. Qed.

Lemma project_summary_lookup fc (i : nat) :
  project_summary fc !! i = summarise fc <$> project_ids fc !! i.
Proof. apply list_lookup_fmap. Qed.
End Extractor.

(** ** ProjectSummarizer: totals *)

Section Totals.
Context {Geometry : Type}.
Implicit Types (f : Feature Geometry) (fc fs : list (Feature Geometry)).




End Totals.


(** ** FeatureEnricher: [processFeatures] *)

Section Enricher.
Context {Geometry : Type}.
Implicit Types (f g : Feature Geometry) (fc : FeatureCollection Geometry).
Implicit Types (cm : gmap string JsValue).

Lemma prop_own f key : prop f key = default JUndefined (own_prop f key).
Proof. unfold prop, own_prop, Js.get. by destruct (properties f). Qed.

Lemma process_feature_fillColor cm f :
  prop (process_feature cm f) "fillColor" = fill_colour cm f.
Proof.
  unfold prop, Js.get. simpl.
  rewrite lookup_insert_ne by done. by rewrite lookup_insert_eq.
Qed.

Lemma process_feature_description cm f :
  prop (process_feature cm f) "description" = JStr (description f).
Proof. unfold prop, Js.get. simpl. by rewrite lookup_insert_eq. Qed.

Lemma process_feature_own_other cm f key :
  key ≠ "fillColor" → key ≠ "description" →
  own_prop (process_feature cm f) key = own_prop f key.
Proof.
  intros H1 H2. unfold own_prop. simpl.
  rewrite !lookup_insert_ne by done.
  destruct (properties f); [done|]. apply lookup_empty.
Qed.

Lemma process_feature_other cm f key :
  key ≠ "fillColor" → key ≠ "description" →
  prop (process_feature cm f) key = prop f key.
Proof. intros. by rewrite !prop_own, process_feature_own_other. Qed.

Lemma fill_colour_process_feature cm cm' f :
  fill_colour cm (process_feature cm' f) = fill_colour cm f.
Proof. unfold fill_colour. by rewrite process_feature_other. Qed.

Lemma description_process_feature cm f :
  description (process_feature cm f) = description f.
Proof.
  unfold description, project_line. by rewrite !process_feature_other.
Qed.

(** C8. Enriching the enricher's own output again, with the same colour
    map, gives every feature the same [fillColor] and [description] as
    the first pass. *)
Theorem processFeatures_idempotent fc cm :
  map derived (processFeatures (processFeatures fc cm) cm)
  = map derived (processFeatures fc cm).
Proof.
  unfold processFeatures. rewrite !map_map. apply map_ext. intros f.
  unfold derived.
  rewrite !process_feature_fillColor, !process_feature_description.
  by rewrite fill_colour_process_feature, description_process_feature.
Qed.

Lemma string_app_assoc (a b c : string) : (a +:+ b) +:+ c = a +:+ b +:+ c.
Proof.
  induction a as [|x a IH]; [done|].
  change (String x ((a +:+ b) +:+ c) = String x (a +:+ b +:+ c)).
  by f_equal.
Qed.

Lemma to_string_prop f key : Js.to_string (prop f key) = shown f key.
Proof. rewrite prop_own. unfold shown. by destruct (own_prop f key). Qed.

Lemma renders_shown f key : renders (own_prop f key) (shown f key).
Proof.
  unfold renders, shown.
  by destruct (own_prop f key) as [[| |[]| | |]|].
Qed.

Lemma project_part_line f :
  project_part (own_prop f "Project__Name") (project_line f).
Proof.
  unfold project_part, project_line. rewrite prop_own.
  destruct (own_prop f "Project__Name") as [[| |[]| |[]|[]]|]; simpl;
    try done; eexists; (split; [|done]); by simpl.
Qed.

(** C7 (amended). The description of an enriched feature is, in this
    order, the bolded name, the owner line, the area line (the raw
    [area_acres] followed by " acres"), a project part and the closing
    tag.  A missing [name], [owner] or [area_acres] is rendered as the
    literal "undefined", a string as it is, an integer in decimal notation
    (see [renders]).  The project part is the project line when
    [Project__Name] is truthy, and it is empty otherwise: when
    [Project__Name] is missing, [null] or the empty string (see
    [project_part]). *)
Theorem description_layout cm f :
  ∃ n o a p : string,
    prop (process_feature cm f) "description"
    = JStr (bolded n +:+ owner_line o +:+ area_line a +:+ p +:+ "</p>")
    ∧ renders (own_prop f "name") n
    ∧ renders (own_prop f "owner") o
    ∧ renders (own_prop f "area_acres") a
    ∧ project_part (own_prop f "Project__Name") p.
Proof.
  exists (shown f "name"), (shown f "owner"), (shown f "area_acres"),
         (project_line f).
  split.
  - rewrite process_feature_description. f_equal.
    unfold description, bolded, owner_line, area_line.
    rewrite !to_string_prop, !string_app_assoc. reflexivity.
  - repeat split; try apply renders_shown. apply project_part_line.
Qed.

Lemma process_feature_other_props cm f :
  other_props (process_feature cm f) = other_props f.
Proof.
  unfold other_props. simpl. apply map_eq. intros key.
  destruct (decide (key = "description")) as [->|Hd];
    [by rewrite !lookup_delete_eq|].
  rewrite !(lookup_delete_ne _ "description") by done.
  destruct (decide (key = "fillColor")) as [->|Hf];
    [by rewrite !lookup_delete_eq|].
  by rewrite !lookup_delete_ne, !lookup_insert_ne by done.
Qed.

(** C4 (amended). The enricher returns a collection of the same length
    and order.  Each output feature keeps the geometry and every
    property of its input feature other than [fillColor] and
    [description]; its [fillColor] is the colour map's entry for
    [Project__Name] whenever [Project__Name] is truthy (present,
    non-null and not the empty string), and the fallback colour
    otherwise.  The colour map is the one built from the collection. *)
Theorem processFeatures_enriches fc :
  Forall2
    (λ f g,
       geometry g = geometry f
       ∧ other_props g = other_props f
       ∧ prop g "fillColor"
         = if Js.truthy (prop f "Project__Name")
           then Js.get_computed (project_colours fc) (prop f "Project__Name")
           else JStr "#888888")
    fc (processFeatures fc (project_colours fc)).
Proof.
  unfold processFeatures. apply Forall2_fmap_r, Forall_Forall2_diag.
  apply Forall_forall. intros f _.
  split; [done|]. split; [apply process_feature_other_props|].
  apply process_feature_fillColor.
Qed.
End Enricher.

(** C4 as stated does not hold: a feature whose [Project__Name] is the
    empty string has a project that is present and non-null, with a
    palette entry in the colour map built from the collection, and yet
    its [fillColor] is the fallback colour. *)
Lemma blank_project_fill_colour :
  has_project blank_project = true
  ∧ Js.get_computed (project_colours [blank_project])
                    (prop blank_project "Project__Name") = JStr "#E6C229"
  ∧ map (λ g, prop g "fillColor")
        (processFeatures [blank_project] (project_colours [blank_project]))
    = [JStr "#888888"]
  ∧ ¬ Forall2
        (λ f g, prop g "fillColor"
                = if has_project f
                  then Js.get_computed (project_colours [blank_project])
                                       (prop f "Project__Name")
                  else JStr "#888888")
        [blank_project]
        (processFeatures [blank_project] (project_colours [blank_project])).
Proof.
  split; [vm_compute; reflexivity|].
  split; [vm_compute; reflexivity|].
  split; [vm_compute; reflexivity|].
  intros H. apply Forall2_cons_1 in H as [H _].
  vm_compute in H. discriminate H.
Qed.

(** C7 as stated does not hold: the [Project__Name] of this feature is
    present, it is the empty string, and yet the description has no
    project line; with the project line of a present name it would end in
    "<br/>Project: </p>". *)
Lemma blank_project_description :
  own_prop blank_project "Project__Name" = Some (JStr "")
  ∧ prop (process_feature (project_colours [blank_project]) blank_project)
         "description"
    = JStr "<strong>North</strong><p>Owner: undefined<br/>Area: 7 acres</p>"
  ∧ prop (process_feature (project_colours [blank_project]) blank_project)
         "description"
    ≠ JStr (bolded "North" +:+ owner_line "undefined" +:+ area_line "7"
            +:+ project_text "" +:+ "</p>").
Proof.
  split; [vm_compute; reflexivity|].
  split; [vm_compute; reflexivity|].
  vm_compute. discriminate.
Qed.

(** ** ColorAssigner: [project_colours] *)

Section Assigner.
Context {Geometry : Type}.
Implicit Types (f : Feature Geometry) (fc : FeatureCollection Geometry).

(** A project identifier whose key no other identifier shares is mapped
    to the palette entry of its own position, taken cyclically. *)
Lemma project_colours_own_position fc (i : nat) (p : JsValue) :
  project_ids fc !! i = Some p →
  (∀ q, q ∈ project_ids fc → Js.to_string q = Js.to_string p → q = p) →
  Js.get_computed (project_colours fc) p
  = Js.index colours (i mod length colours)%nat.
Proof.
  intros Hp Huniq. unfold Js.get_computed, Js.get, project_colours.
  rewrite (from_entries_lookup_unique _ i
             (p, Js.index colours (i mod length colours)%nat)); [done| |].
  - by rewrite colour_entries_lookup, Hp.
  - intros j e'. rewrite colour_entries_lookup.
    destruct (project_ids fc !! j) as [q|] eqn:Hq; [|done].
    intros [= <-]. simpl. intros Hk.
    assert (q = p) as -> by (apply Huniq; [by eapply list_elem_of_lookup_2|done]).
    exact (NoDup_lookup _ _ _ _ (NoDup_project_ids fc) Hq Hp).
Qed.

(** Every extracted identifier is a key of the colour map and holds a
    palette colour. *)
Lemma project_colours_defined fc (p : JsValue) :
  p ∈ project_ids fc →
  ∃ c, c ∈ colours ∧ project_colours fc !! Js.to_string p = Some (JStr c).
Proof.
  intros [i Hi]%list_elem_of_lookup_1.
  assert ((p, Js.index colours (i mod length colours)%nat)
          ∈ colour_entries (project_ids fc)) as He.
  { apply list_elem_of_lookup_2 with i. by rewrite colour_entries_lookup, Hi. }
  apply from_entries_is_Some in He as [x Hx]. simpl in Hx.
  unfold project_colours. rewrite Hx.
  apply from_entries_lookup_Some in Hx as (e & [j Hj]%list_elem_of_lookup_1 & _ & <-).
  rewrite colour_entries_lookup in Hj.
  destruct (project_ids fc !! j) as [q|]; [|done].
  assert (e = (q, Js.index colours (j mod length colours)%nat)) as ->
    by (symmetry; exact (inj Some _ _ Hj)).
  cbn [snd].
  destruct (palette_index j) as (c & Hc & ->).
  exists c. split; [by eapply list_elem_of_lookup_2|done].
Qed.
End Assigner.

(** ** The pipeline as a whole *)

Section Whole.
Context {Geometry : Type}.
Implicit Types (f g : Feature Geometry) (fc : FeatureCollection Geometry).

Lemma has_project_prop f :
  has_project f = true →
  prop f "Project__Name" ≠ JUndefined ∧ prop f "Project__Name" ≠ JNull.
Proof.
  unfold has_project. rewrite prop_own.
  by destruct (own_prop f "Project__Name") as [[]|].
Qed.

Lemma truthy_not_null (v : JsValue) : Js.truthy v = true → v ≠ JNull.
Proof. by destruct v. Qed.

Lemma project_name_extracted fc f :
  f ∈ fc → prop f "Project__Name" ≠ JNull →
  prop f "Project__Name" ∈ project_ids fc.
Proof. intros Hf Hv. apply elem_of_project_ids. split; [done|]. by exists f. Qed.

(** Every enriched feature is filled with a palette colour or with the
    fallback colour: the colour-map lookup never yields [undefined]. *)
Lemma fill_colour_defined fc f :
  f ∈ fc →
  ∃ c, fill_colour (project_colours fc) f = JStr c
       ∧ (c ∈ colours ∨ c = fallback_colour).
Proof.
  intros Hf. unfold fill_colour.
  destruct (Js.truthy (prop f "Project__Name")) eqn:Ht.
  - apply truthy_not_null in Ht.
    destruct (project_colours_defined fc _ (project_name_extracted _ _ Hf Ht))
      as (c & Hc & Hlook).
    exists c. unfold Js.get_computed, Js.get. rewrite Hlook. auto.
  - exists fallback_colour. auto.
Qed.

(** C9. The transforms are total functions of the collection.  On the
    empty collection the distinct projects, the colour map, the
    enriched collection and the summary list are all empty; on any
    collection the enriched collection has one feature per input
    feature and the summary list one record per distinct project.  A
    [Project__Name] that is present and non-null is a key of the colour
    map built from the same collection and holds a palette colour, so
    the lookup made by the enricher is always defined: every
    [fillColor] is a palette colour or the fallback colour. *)
Theorem transforms_total :
  (project_ids ([] : FeatureCollection Geometry) = []
   ∧ project_colours ([] : FeatureCollection Geometry) = ∅
   ∧ processedFeatures ([] : FeatureCollection Geometry) = []
   ∧ project_summary ([] : FeatureCollection Geometry) = [])
  ∧ (∀ fc, length (processedFeatures fc) = length fc
           ∧ length (project_summary fc) = length (project_ids fc))
  ∧ (∀ fc f, f ∈ fc → has_project f = true →
       ∃ c, c ∈ colours
            ∧ project_colours fc !! Js.to_string (prop f "Project__Name")
              = Some (JStr c))
  ∧ (∀ fc g, g ∈ processedFeatures fc →
       ∃ c, prop g "fillColor" = JStr c ∧ (c ∈ colours ∨ c = "#888888")).
Proof.
  split; [by repeat split|]. split; [|split].
  - intros fc. unfold processedFeatures, processFeatures, project_summary.
    by rewrite !length_map.
  - intros fc f Hf [_ Hnull]%has_project_prop.
    by apply project_colours_defined, project_name_extracted.
  - intros fc g (f & -> & Hf)%list_elem_of_fmap.
    rewrite process_feature_fillColor. by apply fill_colour_defined.
Qed.

(** C10. For a feature of the collection whose [Project__Name] is the
    empty string: the empty string is one of the extracted projects, at
    some position [i]; the colour map holds the palette colour of that
    position under the empty key; the summary at position [i] is a
    record of its own, named by the empty string and counting at least
    that feature.  The enricher nevertheless gives the feature the
    fallback colour, which is not the mapped palette colour, and a
    description without project line. *)
Theorem blank_project_name fc f :
  f ∈ fc →
  prop f "Project__Name" = JStr "" →
  (∃ (i : nat) (c : string) (s : ProjectSummary),
      project_ids fc !! i = Some (JStr "")
      ∧ colours !! (i mod length colours)%nat = Some c
      ∧ project_colours fc !! "" = Some (JStr c)
      ∧ project_summary fc !! i = Some s
      ∧ name s = JStr "" ∧ colour s = JStr c ∧ (0 < count s)%nat
      ∧ c ≠ "#888888")
  ∧ prop (process_feature (project_colours fc) f) "fillColor" = JStr "#888888"
  ∧ prop (process_feature (project_colours fc) f) "description"
    = JStr (bolded (shown f "name") +:+ owner_line (shown f "owner")
            +:+ area_line (shown f "area_acres") +:+ "</p>").
Proof.
  intros Hf Hname. split; [|split].
  - assert (JStr "" ∈ project_ids fc) as [i Hi]%list_elem_of_lookup_1.
    { rewrite <- Hname. apply project_name_extracted; [done|]. by rewrite Hname. }
    destruct (palette_index i) as (c & Hc & Hidx).
    assert (Js.get_computed (project_colours fc) (JStr "") = JStr c) as Hget.
    { rewrite <- Hidx. apply project_colours_own_position; [done|].
      intros q _ Hq. by apply to_string_empty. }
    assert (project_colours fc !! "" = Some (JStr c)) as Hlook.
    { destruct (project_colours_defined fc (JStr ""))
        as (c' & _ & Hc'); [by eapply list_elem_of_lookup_2|].
      unfold Js.get_computed, Js.get in Hget. simpl in Hc', Hget.
      rewrite Hc' in Hget. simpl in Hget. by rewrite Hc', Hget. }
    exists i, c, (summarise fc (JStr "")).
    split; [done|]. split; [done|]. split; [done|].
    split; [by rewrite project_summary_lookup, Hi|].
    split; [done|]. split; [exact Hget|]. split.
    + simpl. unfold project_features.
      assert (f ∈ filter
                (λ f, Js.strict_eq (prop f "Project__Name") (JStr "") = true) fc)
        as Hin by (apply list_elem_of_filter; by rewrite Hname).
      destruct (filter _ fc); [by apply elem_of_nil in Hin|simpl; lia].
    + intros ->. apply list_elem_of_lookup_2 in Hc.
      revert Hc. unfold colours. rewrite !elem_of_cons, elem_of_nil.
      intros [?|[?|[?|[?|[?|[]]]]]]; discriminate.
  - rewrite process_feature_fillColor. unfold fill_colour. by rewrite Hname.
  - rewrite process_feature_description. f_equal.
    unfold description, project_line, bolded, owner_line, area_line.
    rewrite Hname. simpl.
    rewrite !to_string_prop, !string_app_assoc. reflexivity.
Qed.
End Whole.

(** ** ProjectSummarizer: counts *)

Section Counts.
Context {Geometry : Type}.
Implicit Types (f : Feature Geometry) (fc : FeatureCollection Geometry).

Lemma length_filter_ext_elem (P Q : Feature Geometry → Prop)
    `{!∀ f, Decision (P f), !∀ f, Decision (Q f)} fc :
  (∀ f, f ∈ fc → P f ↔ Q f) →
  length (filter P fc) = length (filter Q fc).
Proof.
  induction fc as [|f fc IH]; intros Hext; [done|].
  rewrite !filter_cons.
  assert (P f ↔ Q f) as Hf by (apply Hext; left).
  assert (length (filter P fc) = length (filter Q fc)) as Hrest
    by (apply IH; intros g Hg; apply Hext; by right).
  destruct (decide (P f)), (decide (Q f)); simpl; tauto || lia.
Qed.

Lemma length_project_features_cons fc (p : JsValue) (ids : list JsValue) :
  p ≠ JNaN → p ∉ ids →
  length (filter (λ f, prop f "Project__Name" ∈ p :: ids) fc)
  = (length (project_features fc p)
     + length (filter (λ f, prop f "Project__Name" ∈ ids) fc))%nat.
Proof.
  intros Hnan Hfresh. unfold project_features.
  induction fc as [|f fc IH]; [done|].
  rewrite !filter_cons.
  destruct (decide (prop f "Project__Name" = p)) as [Heq|Hne].
  - rewrite decide_True by (rewrite Heq; left).
    rewrite decide_True by (apply strict_eq_true; by rewrite Heq).
    rewrite decide_False by (by rewrite Heq).
    simpl. by rewrite IH.
  - rewrite (decide_False (P := Js.strict_eq _ _ = true))
      by (rewrite strict_eq_true; tauto).
    destruct (decide (prop f "Project__Name" ∈ ids)) as [Hin|Hout].
    + rewrite decide_True by (by right). simpl. rewrite IH. lia.
    + rewrite decide_False by (rewrite elem_of_cons; tauto). done.
Qed.

Lemma count_sum_over_ids fc (ids : list JsValue) :
  NoDup ids → JNaN ∉ ids →
  sum_list (count <$> map (summarise fc) ids)
  = length (filter (λ f, prop f "Project__Name" ∈ ids) fc).
Proof.
  induction 1 as [|p ids Hfresh _ IH]; intros Hnan.
  - simpl. symmetry. apply length_zero_iff_nil.
    induction fc as [|f fc IHfc]; [done|].
    rewrite filter_cons_False; [done|]. apply not_elem_of_nil.
  - apply not_elem_of_cons in Hnan as [Hp Hnan].
    rewrite length_project_features_cons by done.
    cbn [map fmap list_fmap sum_list_with]. simpl count.
    by rewrite <- IH.
Qed.

(** What the summaries count: as long as no [Project__Name] is [NaN],
    the counts add up to the number of features whose [Project__Name]
    is not [null], a missing one included. *)
Lemma count_total fc :
  (∀ f, f ∈ fc → prop f "Project__Name" ≠ JNaN) →
  sum_list (count <$> project_summary fc)
  = length (filter (λ f, prop f "Project__Name" ≠ JNull) fc).
Proof.
  intros Hnan. unfold project_summary.
  rewrite count_sum_over_ids.
  - apply length_filter_ext_elem. intros f Hf.
    rewrite elem_of_project_ids. split; [tauto|].
    intros Hv. split; [done|]. by exists f.
  - apply NoDup_project_ids.
  - intros (_ & f & Hf & Hv)%elem_of_project_ids. by apply (Hnan f).
Qed.
End Counts.

(** The key "A" of the worked example's colour map. *)
Lemma transforms_total_example :
  paddock [("Project__Name", JStr "A"); ("area_acres", JNum 10); ("owner", JStr "X")]
    ∈ example_input
  ∧ ∃ c, c ∈ colours ∧ project_colours example_input !! "A" = Some (JStr c).
Proof.
  assert (paddock [("Project__Name", JStr "A"); ("area_acres", JNum 10);
                   ("owner", JStr "X")] ∈ example_input) as Hin
    by (unfold example_input; left).
  split; [exact Hin|].
  destruct (@transforms_total unit) as (_ & _ & Hkey & _).
  apply (Hkey example_input _ Hin). vm_compute; reflexivity.
Defined.

(** The fill colour of a lone feature with an empty project name. *)
Lemma blank_project_name_example :
  blank_project ∈ [blank_project]
  ∧ prop blank_project "Project__Name" = JStr ""
  ∧ prop (process_feature (project_colours [blank_project]) blank_project)
         "fillColor" = JStr "#888888".
Proof.
  assert (blank_project ∈ [blank_project]) as Hin by left.
  assert (prop blank_project "Project__Name" = JStr "") as Hname
    by (vm_compute; reflexivity).
  split; [exact Hin|]. split; [exact Hname|].
  exact (proj1 (proj2 (blank_project_name [blank_project] blank_project Hin Hname))).
Defined.

(** ** The worked example and other sample runs *)

(** C1. On the four-feature collection of the worked example the code
    yields three distinct projects, ["A"], ["B"] and [undefined]; the
    colour map has the three keys "A", "B" and "undefined"; there are
    three summaries, the third one counting the fourth feature; the
    fourth feature is filled with the fallback colour. *)
Theorem example_pipeline :
  project_ids example_input = [JStr "A"; JStr "B"; JUndefined]
  ∧ project_colours example_input
    = obj [("A", JStr "#E6C229"); ("B", JStr "#F17105");
           ("undefined", JStr "#D11149")]
  ∧ project_summary example_input
    = [ mkSummary (JStr "A") (JStr "#E6C229") 2 (JNum 15) (JStr "X");
        mkSummary (JStr "B") (JStr "#F17105") 1 (JNum 3) (JStr "Z");
        mkSummary JUndefined (JStr "#D11149") 1 (JNum 1) JUndefined ]
  ∧ map (λ g, prop g "fillColor") (processedFeatures example_input)
    = [JStr "#E6C229"; JStr "#E6C229"; JStr "#F17105"; JStr "#888888"].
Proof. repeat split; vm_compute; reflexivity. Qed.

(** C2. A feature without [Project__Name] is not left out by the
    extractor: of a feature with a [null] project and a feature with no
    project, the second one yields the entry [undefined]. *)
Theorem project_ids_unassigned :
  map has_project unassigned_input = [false; false]
  ∧ project_ids unassigned_input = [JUndefined].
Proof. split; vm_compute; reflexivity. Qed.

(** C3. On the worked example the counts of the summaries add up to 4,
    while 3 features have a [Project__Name] that is present and
    non-null. *)
Theorem count_total_example :
  sum_list (count <$> project_summary example_input) = 4%nat
  ∧ length (filter (λ f, has_project f = true) example_input) = 3%nat.
Proof. split; vm_compute; reflexivity. Qed.

(** A feature with no properties at all, or with [properties: null], is
    described with the literal "undefined" in all three positions and
    without project line. *)
Lemma description_of_bare_feature :
  map (λ g, prop g "description")
      (processFeatures [paddock []; mkFeature tt None] ∅)
  = [ JStr "<strong>undefined</strong><p>Owner: undefined<br/>Area: undefined acres</p>";
      JStr "<strong>undefined</strong><p>Owner: undefined<br/>Area: undefined acres</p>" ].
Proof. vm_compute; reflexivity. Qed.

(** C5. With a project named "undefined" first and a feature without
    project second, the distinct sequence is ["undefined"; undefined];
    both identifiers use the property key "undefined", so the colour map
    gives the project at position 0 the palette entry of position 1. *)
Theorem shadowed_project_colour :
  project_ids shadowed_input = [JStr "undefined"; JUndefined]
  ∧ Js.get_computed (project_colours shadowed_input) (JStr "undefined")
    = JStr "#F17105"
  ∧ Js.index colours (0 mod length colours)%nat = JStr "#E6C229"
  ∧ Js.index colours (1 mod length colours)%nat = JStr "#F17105".
Proof. repeat split; vm_compute; reflexivity. Qed.

(** * Further properties of the transforms *)

(** ** The extractor *)

Section ExtractorMore.
Context {Geometry : Type}.
Implicit Types (f g : Feature Geometry) (fc : FeatureCollection Geometry).
Implicit Types (v w : JsValue).

(** X1. The extractor never lists a value twice, never lists [null], and
    lists exactly the values other than [null] that some feature yields
    for [Project__Name] (a missing one reads as [undefined]). *)
Theorem project_ids_exactly_non_null fc :
  NoDup (project_ids fc)
  ∧ ∀ v, v ∈ project_ids fc
         ↔ v ≠ JNull ∧ ∃ f, f ∈ fc ∧ prop f "Project__Name" = v.
Proof. split; [apply NoDup_project_ids|]. intros v. apply elem_of_project_ids. Qed.

Lemma filter_split_at (P : JsValue → Prop) `{!∀ x, Decision (P x)}
    (l k rest : list JsValue) v :
  filter P l = k ++ v :: rest →
  ∃ l1 l2, l = l1 ++ v :: l2 ∧ filter P l1 = k ∧ filter P l2 = rest.
Proof.
  revert k. induction l as [|x l IH]; intros k Hk.
  - by destruct k.
  - rewrite filter_cons in Hk. destruct (decide (P x)) as [Hx|Hx].
    + destruct k as [|y k].
      * injection Hk as -> Hrest. exists [], l. by rewrite filter_nil.
      * injection Hk as -> Hrest.
        destruct (IH _ Hrest) as (l1 & l2 & -> & <- & <-).
        exists (y :: l1), l2. by rewrite filter_cons_True.
    + destruct (IH _ Hk) as (l1 & l2 & -> & <- & <-).
      exists (x :: l1), l2. by rewrite filter_cons_False.
Qed.

Lemma first_occurrences_order (l k1 k2 k3 : list JsValue) v w :
  first_occurrences l = k1 ++ v :: k2 ++ w :: k3 →
  ∃ p q, l = p ++ v :: q ∧ w ∉ p.
Proof.
  revert k1 k2 k3. induction l as [|x r IH]; intros k1 k2 k3 Hfo.
  - by destruct k1.
  - cbn [first_occurrences] in Hfo.
    destruct k1 as [|y k1].
    + injection Hfo as -> _. exists [], r. split; [done|]. apply not_elem_of_nil.
    + injection Hfo as -> Hfo.
      assert (w ≠ y) as Hw.
      { assert (w ∈ filter (λ z, z ≠ y) (first_occurrences r)) as Hin
          by (rewrite Hfo, !elem_of_app, !elem_of_cons, elem_of_app, elem_of_cons; auto).
        by apply list_elem_of_filter in Hin as [? _]. }
      apply filter_split_at in Hfo as (l1 & l2 & Hr & <- & Hrest).
      apply filter_split_at in Hrest as (l3 & l4 & -> & <- & <-).
      destruct (IH _ _ _ Hr) as (p & q & -> & Hp).
      exists (y :: p), q. split; [done|].
      rewrite not_elem_of_cons. auto.
Qed.

(** X2. First-appearance order: when [v] comes before [w] among the
    extracted projects, some feature with project [v] comes before every
    feature with project [w]. *)
Theorem project_ids_input_order fc (k1 k2 k3 : list JsValue) v w :
  project_ids fc = k1 ++ v :: k2 ++ w :: k3 →
  ∃ pre f post,
    fc = pre ++ f :: post
    ∧ prop f "Project__Name" = v
    ∧ Forall (λ g, prop g "Project__Name" ≠ w) pre.
Proof.
  intros Hids.
  assert (w ≠ JNull) as Hw.
  { assert (w ∈ project_ids fc) as Hin
      by (rewrite Hids, !elem_of_app, !elem_of_cons, elem_of_app, elem_of_cons; auto).
    by apply elem_of_project_ids in Hin as [? _]. }
  rewrite project_ids_first_occurrences in Hids.
  apply first_occurrences_order in Hids as (p & q & Hpq & Hp).
  apply filter_split_at in Hpq as (l1 & l2 & Hvals & <- & _).
  change (map ?h fc) with (h <$> fc) in Hvals.
  apply fmap_app_inv in Hvals as (pre & rest & -> & Hrest & ->).
  symmetry in Hrest.
  apply fmap_cons_inv in Hrest as (f & post & Hf & _ & ->).
  exists pre, f, post. split; [done|]. split; [done|].
  apply Forall_forall. intros g Hg Hgw. apply Hp.
  apply list_elem_of_filter. split; [done|].
  rewrite <- Hgw. apply list_elem_of_fmap. by exists g.
Qed.

Lemma set_from_app (l l' : list JsValue) :
  Js.set_from l `prefix_of` Js.set_from (l ++ l').
Proof.
  unfold Js.set_from. rewrite fold_left_app.
  rewrite (set_fold_first_occurrences l' (fold_left Js.set_add l [])).
  by eexists.
Qed.

(** X3. Features added at the end of the collection leave the projects
    extracted so far where they are: new projects are only appended. *)
Theorem project_ids_app_prefix fc fc' :
  project_ids fc `prefix_of` project_ids (fc ++ fc').
Proof.
  unfold project_ids. rewrite map_app, filter_app. apply set_from_app.
Qed.
End ExtractorMore.

(** Project "A" comes before project "B" in the worked example. *)
Lemma project_ids_input_order_example :
  project_ids example_input = [] ++ JStr "A" :: [] ++ JStr "B" :: [JUndefined]
  ∧ ∃ pre f post,
      example_input = pre ++ f :: post
      ∧ prop f "Project__Name" = JStr "A"
      ∧ Forall (λ g, prop g "Project__Name" ≠ JStr "B") pre.
Proof.
  assert (project_ids example_input
          = [] ++ JStr "A" :: [] ++ JStr "B" :: [JUndefined]) as Hids
    by (vm_compute; reflexivity).
  split; [exact Hids|].
  exact (project_ids_input_order example_input _ _ _ _ _ Hids).
Defined.

(** ** The summarizer *)

Section SummarizerMore.
Context {Geometry : Type}.
Implicit Types (f g : Feature Geometry) (fc fs : list (Feature Geometry)).
Implicit Types (A B C : Feature Geometry → Prop).

Lemma filter_ext_elem A B `{!∀ f, Decision (A f), !∀ f, Decision (B f)} fc :
  (∀ f, f ∈ fc → A f ↔ B f) → filter A fc = filter B fc.
Proof.
  induction fc as [|f fc IH]; intros Hext; [done|].
  rewrite !filter_cons.
  assert (A f ↔ B f) as Hf by (apply Hext; left).
  rewrite IH by (intros g Hg; apply Hext; by right).
  destruct (decide (A f)), (decide (B f)); tauto.
Qed.

Lemma filter_split_length A B C
    `{!∀ f, Decision (A f), !∀ f, Decision (B f), !∀ f, Decision (C f)} fc :
  (∀ f, A f ↔ B f ∨ C f) → (∀ f, B f → C f → False) →
  length (filter A fc) = (length (filter B fc) + length (filter C fc))%nat.
Proof.
  intros Hor Hdisj. induction fc as [|f fc IH]; [done|].
  rewrite !filter_cons. specialize (Hor f). specialize (Hdisj f).
  destruct (decide (A f)), (decide (B f)), (decide (C f));
    simpl; rewrite ?length_app; simpl; tauto || lia.
Qed.

Lemma listed_split (p : JsValue) (ids : list JsValue) :
  p ∉ ids →
  (∀ f, prop f "Project__Name" ∈ p :: ids ∧ prop f "Project__Name" ≠ JNaN
        ↔ Js.strict_eq (prop f "Project__Name") p = true
          ∨ (prop f "Project__Name" ∈ ids ∧ prop f "Project__Name" ≠ JNaN))
  ∧ (∀ f, Js.strict_eq (prop f "Project__Name") p = true →
          prop f "Project__Name" ∈ ids ∧ prop f "Project__Name" ≠ JNaN → False).
Proof.
  intros Hfresh. split; intros f; rewrite strict_eq_true.
  - rewrite elem_of_cons. tauto.
  - intros [-> _] [Hin _]. done.
Qed.

Lemma listed_nil fc :
  filter (λ f, prop f "Project__Name" ∈ @nil JsValue
               ∧ prop f "Project__Name" ≠ JNaN) fc = [].
Proof.
  induction fc as [|f fc IH]; [done|].
  rewrite filter_cons_False; [done|]. intros [[]%elem_of_nil _].
Qed.

Lemma listed_counted fc :
  filter (λ f, prop f "Project__Name" ∈ project_ids fc
               ∧ prop f "Project__Name" ≠ JNaN) fc
  = filter (λ f, counted f = true) fc.
Proof.
  apply filter_ext_elem. intros f Hf. rewrite elem_of_project_ids.
  unfold counted. split.
  - intros [[Hnull _] Hnan]. by destruct (prop f "Project__Name").
  - intros Hc. split; [split|].
    + by destruct (prop f "Project__Name").
    + by exists f.
    + by destruct (prop f "Project__Name").
Qed.

Lemma count_over_ids fc (ids : list JsValue) :
  NoDup ids →
  sum_list (count <$> map (summarise fc) ids)
  = length (filter (λ f, prop f "Project__Name" ∈ ids
                         ∧ prop f "Project__Name" ≠ JNaN) fc).
Proof.
  induction 1 as [|p ids Hfresh _ IH].
  - by rewrite listed_nil.
  - destruct (listed_split p ids Hfresh) as [Hor Hdisj].
    rewrite (filter_split_length _ _ _ fc Hor Hdisj), <- IH. done.
Qed.

(** X4. The counts of the summaries add up to the number of features
    whose [Project__Name] is neither [null] nor [NaN]: every such
    feature, one without [Project__Name] included, is counted by exactly
    one summary. *)
Theorem count_total_counted fc :
  sum_list (count <$> project_summary fc)
  = length (filter (λ f, counted f = true) fc).
Proof.
  unfold project_summary. rewrite count_over_ids by apply NoDup_project_ids.
  by rewrite listed_counted.
Qed.

Lemma filter_first A `{!∀ f, Decision (A f)} fc f0 :
  f0 ∈ fc → A f0 →
  ∃ pre f post,
    fc = pre ++ f :: post ∧ Forall (λ g, ¬ A g) pre ∧ A f
    ∧ filter A fc = f :: filter A post.
Proof.
  induction fc as [|x fc IH]; intros Hin HA; [by apply elem_of_nil in Hin|].
  destruct (decide (A x)) as [Hx|Hx].
  - exists [], x, fc. by rewrite filter_cons_True.
  - apply elem_of_cons in Hin as [->|Hin]; [done|].
    destruct (IH Hin HA) as (pre & f & post & -> & Hpre & Hf & Hfilter).
    exists (x :: pre), f, post. rewrite filter_cons_False by done.
    split; [done|]. split; [by constructor|]. done.
Qed.

(** X6. The summary of a project other than [NaN] counts at least one
    feature, and its [owner] is the [owner] of the first feature, in
    input order, whose [Project__Name] is that project; the owners of
    later features of the project are not looked at. *)
Theorem summary_owner_first fc (i : nat) (p : JsValue) :
  project_ids fc !! i = Some p →
  p ≠ JNaN →
  ∃ s pre f post,
    project_summary fc !! i = Some s
    ∧ fc = pre ++ f :: post
    ∧ Forall (λ g, prop g "Project__Name" ≠ p) pre
    ∧ prop f "Project__Name" = p
    ∧ owner s = prop f "owner"
    ∧ (1 ≤ count s)%nat.
Proof.
  intros Hp Hnan.
  assert (p ∈ project_ids fc) as Hin by (by eapply list_elem_of_lookup_2).
  apply elem_of_project_ids in Hin as (_ & f0 & Hf0 & Hname).
  destruct (filter_first
              (λ f, Js.strict_eq (prop f "Project__Name") p = true) fc f0)
    as (pre & f & post & Hfc & Hpre & Hf & Hfilter);
    [done|apply strict_eq_true; by rewrite Hname|].
  exists (summarise fc p), pre, f, post.
  split; [by rewrite project_summary_lookup, Hp|].
  split; [done|]. split; [|split; [by apply strict_eq_true in Hf as [? _]|]].
  - eapply Forall_impl; [exact Hpre|]. intros g Hg Heq. apply Hg.
    apply strict_eq_true. by rewrite Heq.
  - unfold summarise, project_features. cbn [owner count].
    rewrite Hfilter. split; [done|]. simpl. lia.
Qed.
End SummarizerMore.

(** The owner of project "A" in the worked example is the one of the
    first paddock. *)
Lemma summary_owner_first_example :
  project_ids example_input !! 0%nat = Some (JStr "A")
  ∧ ∃ s pre f post,
      project_summary example_input !! 0%nat = Some s
      ∧ example_input = pre ++ f :: post
      ∧ Forall (λ g, prop g "Project__Name" ≠ JStr "A") pre
      ∧ prop f "Project__Name" = JStr "A"
      ∧ owner s = prop f "owner"
      ∧ (1 ≤ count s)%nat.
Proof.
  assert (project_ids example_input !! 0%nat = Some (JStr "A")) as Hp
    by (vm_compute; reflexivity).
  split; [exact Hp|].
  apply (summary_owner_first example_input 0 (JStr "A") Hp). discriminate.
Defined.

(** ** The colour assigner *)

Section AssignerMore.
Context {Geometry : Type}.
Implicit Types (f g : Feature Geometry) (fc : FeatureCollection Geometry).
Implicit Types (es : list (JsValue * JsValue)).

(** [Object.fromEntries]: a key holds the value of the last entry that
    has it. *)
Lemma from_entries_last_wins es (k : string) (x : JsValue) :
  Js.from_entries es !! k = Some x
  ↔ ∃ (j : nat) e,
      es !! j = Some e ∧ Js.to_string e.1 = k ∧ e.2 = x
      ∧ ∀ (j' : nat) e', (j < j')%nat → es !! j' = Some e' →
                         Js.to_string e'.1 ≠ k.
Proof.
  induction es as [|e0 es IH] using rev_ind.
  - unfold Js.from_entries. simpl. rewrite lookup_empty.
    split; [done|]. by intros (j & e & Hj & _).
  - rewrite from_entries_lookup_snoc.
    assert ((es ++ [e0]) !! length es = Some e0) as Hlast
      by (by rewrite lookup_app_r, Nat.sub_diag by lia).
    case_decide as Hk; split.
    + intros [= <-]. exists (length es), e0.
      split; [done|]. split; [done|]. split; [done|].
      intros j' e' Hlt Hj'. apply lookup_lt_Some in Hj'.
      rewrite length_app in Hj'. simpl in Hj'. lia.
    + intros (j & e & Hj & _ & <- & Hlater).
      destruct (decide (j = length es)) as [->|Hne]; [congruence|].
      exfalso. apply (Hlater (length es) e0); [|done|done].
      apply lookup_lt_Some in Hj. rewrite length_app in Hj. simpl in Hj. lia.
    + intros (j & e & Hj & Hkey & Hval & Hlater)%IH.
      exists j, e. rewrite lookup_app_l by (by eapply lookup_lt_Some).
      split; [done|]. split; [done|]. split; [done|].
      intros j' e' Hlt Hj'.
      destruct (decide (j' < length es)%nat) as [Hin|Hout].
      * rewrite lookup_app_l in Hj' by done. by eapply Hlater.
      * assert (j' = length es) as ->.
        { apply lookup_lt_Some in Hj'. rewrite length_app in Hj'.
          simpl in Hj'. lia. }
        congruence.
    + intros (j & e & Hj & Hkey & Hval & Hlater).
      assert (j < length es)%nat as Hlt.
      { pose proof (lookup_lt_Some _ _ _ Hj) as Hlen.
        rewrite length_app in Hlen. simpl in Hlen.
        destruct (decide (j = length es)) as [->|]; [|lia]. congruence. }
      rewrite lookup_app_l in Hj by done.
      apply IH. exists j, e.
      split; [done|]. split; [done|]. split; [done|].
      intros j' e' Hlt' Hj'. apply (Hlater j' e' Hlt').
      rewrite lookup_app_l; [done|]. by eapply lookup_lt_Some.
Qed.

(** X7. What the colour map holds.  A key holds a colour exactly when it
    is the property key of some extracted project; the colour is the
    palette entry, taken cyclically, of the position of the last
    extracted project that has this key. *)
Theorem project_colours_lookup fc (k : string) :
  (is_Some (project_colours fc !! k)
   ↔ ∃ p, p ∈ project_ids fc ∧ Js.to_string p = k)
  ∧ ∀ x, project_colours fc !! k = Some x
         ↔ ∃ (j : nat) p,
             project_ids fc !! j = Some p ∧ Js.to_string p = k
             ∧ x = Js.index colours (j mod length colours)%nat
             ∧ ∀ (j' : nat) p', (j < j')%nat → project_ids fc !! j' = Some p' →
                                Js.to_string p' ≠ k.
Proof.
  assert (∀ x, project_colours fc !! k = Some x
         ↔ ∃ (j : nat) p,
             project_ids fc !! j = Some p ∧ Js.to_string p = k
             ∧ x = Js.index colours (j mod length colours)%nat
             ∧ ∀ (j' : nat) p', (j < j')%nat → project_ids fc !! j' = Some p' →
                                Js.to_string p' ≠ k) as Hlookup.
  { intros x. unfold project_colours. rewrite from_entries_last_wins. split.
    - intros (j & e & Hj & Hkey & Hval & Hlater).
      rewrite colour_entries_lookup in Hj.
      destruct (project_ids fc !! j) as [p|] eqn:Hp; [|done].
      assert (e = (p, Js.index colours (j mod length colours)%nat)) as ->
        by (symmetry; exact (inj Some _ _ Hj)).
      exists j, p. split; [done|]. split; [done|]. split; [done|].
      intros j' p' Hlt Hp'.
      apply (Hlater j' (p', Js.index colours (j' mod length colours)%nat) Hlt).
      by rewrite colour_entries_lookup, Hp'.
    - intros (j & p & Hp & Hkey & -> & Hlater).
      exists j, (p, Js.index colours (j mod length colours)%nat).
      split; [by rewrite colour_entries_lookup, Hp|].
      split; [done|]. split; [done|].
      intros j' e' Hlt. rewrite colour_entries_lookup.
      destruct (project_ids fc !! j') as [p'|] eqn:Hp'; [|done].
      intros He'.
      assert (e' = (p', Js.index colours (j' mod length colours)%nat)) as ->
        by (symmetry; exact (inj Some _ _ He')).
      by eapply Hlater. }
  split; [|exact Hlookup]. split.
  - intros [x (j & p & Hp & Hkey & _)%Hlookup].
    exists p. split; [by eapply list_elem_of_lookup_2|done].
  - intros (p & Hp & <-).
    destruct (project_colours_defined fc p Hp) as (c & _ & Hc). by eexists.
Qed.

Lemma distinct_keys_unique (ids : list JsValue) (i : nat) p q :
  NoDup (Js.to_string <$> ids) →
  ids !! i = Some p → q ∈ ids → Js.to_string q = Js.to_string p → q = p.
Proof.
  intros Hnd Hp [j Hq]%list_elem_of_lookup_1 Hkey.
  assert (j = i) as ->; [|congruence].
  apply (NoDup_lookup _ _ _ (Js.to_string p) Hnd).
  - by rewrite list_lookup_fmap, Hq, <- Hkey.
  - by rewrite list_lookup_fmap, Hp.
Qed.

Lemma NoDup_colours : NoDup colours.
Proof. apply (bool_decide_unpack _). vm_compute. exact I. Qed.

Lemma palette_index_inj (a b : nat) :
  (a < length colours)%nat → (b < length colours)%nat →
  Js.index colours a = Js.index colours b → a = b.
Proof.
  intros Ha Hb. unfold Js.index.
  destruct (lookup_lt_is_Some_2 _ _ Ha) as [ca Hca].
  destruct (lookup_lt_is_Some_2 _ _ Hb) as [cb Hcb].
  rewrite Hca, Hcb. intros [= <-].
  exact (NoDup_lookup _ _ _ _ NoDup_colours Hca Hcb).
Qed.

(** X8. When no two extracted projects share a property key, two of them
    get the same colour exactly when their positions are congruent modulo
    the palette size: the first five projects have five different
    colours, and from the sixth on the colours are used again in order. *)
Theorem project_colours_cycle fc (i j : nat) (p q : JsValue) :
  NoDup (Js.to_string <$> project_ids fc) →
  project_ids fc !! i = Some p →
  project_ids fc !! j = Some q →
  Js.get_computed (project_colours fc) p = Js.get_computed (project_colours fc) q
  ↔ (i mod length colours = j mod length colours)%nat.
Proof.
  intros Hnd Hp Hq.
  rewrite (project_colours_own_position fc i p Hp)
    by (intros; by eapply distinct_keys_unique).
  rewrite (project_colours_own_position fc j q Hq)
    by (intros; by eapply distinct_keys_unique).
  split; [|by intros ->].
  apply palette_index_inj; apply Nat.mod_upper_bound; discriminate.
Qed.

Lemma plain_name_keys fc :
  Forall (λ f, plain_name f = true) fc →
  NoDup (Js.to_string <$> project_ids fc).
Proof.
  intros Hplain. apply NoDup_fmap_2_strong; [|apply NoDup_project_ids].
  assert (∀ v, v ∈ project_ids fc →
               v = JUndefined ∨ ∃ s, v = JStr s ∧ s ≠ "undefined") as Hshape.
  { intros v (Hnull & f & Hf & <-)%elem_of_project_ids.
    rewrite Forall_forall in Hplain. specialize (Hplain f Hf).
    unfold plain_name in Hplain.
    destruct (prop f "Project__Name") as [| | | | |s]; try done; [by left|].
    right. exists s. split; [done|]. intros ->. done. }
  intros v w Hv Hw.
  destruct (Hshape v Hv) as [->|(s & -> & Hs)],
           (Hshape w Hw) as [->|(t & -> & Ht)]; simpl; congruence.
Qed.

(** X9. When every [Project__Name] is a string other than "undefined",
    [null] or missing, the colour map gives the project at position [i]
    the palette entry [i mod colours.length]. *)
Theorem project_colours_by_position fc (i : nat) (p : JsValue) :
  Forall (λ f, plain_name f = true) fc →
  project_ids fc !! i = Some p →
  Js.get_computed (project_colours fc) p
  = Js.index colours (i mod length colours)%nat.
Proof.
  intros Hplain Hp. apply project_colours_own_position; [done|].
  intros q Hq Hkey.
  by eapply distinct_keys_unique; [apply plain_name_keys|..].
Qed.

(** X10. The colour of a summary is always a palette colour, never the
    fallback colour and never [undefined]. *)
Theorem summary_colour_in_palette fc (s : ProjectSummary) :
  s ∈ project_summary fc →
  ∃ c, c ∈ colours ∧ colour s = JStr c ∧ c ≠ fallback_colour.
Proof.
  intros (p & -> & Hp)%list_elem_of_fmap.
  destruct (project_colours_defined fc p Hp) as (c & Hc & Hlook).
  exists c. split; [done|]. split.
  - simpl. unfold Js.get_computed, Js.get. by rewrite Hlook.
  - intros ->. revert Hc. unfold colours, fallback_colour.
    rewrite !elem_of_cons, elem_of_nil.
    intros [?|[?|[?|[?|[?|[]]]]]]; discriminate.
Qed.

(** X11. Legend and map agree: a feature whose [Project__Name] is truthy
    is filled with the colour of the summary of its project, and that
    summary exists. *)
Theorem fill_colour_matches_summary fc f :
  f ∈ fc →
  Js.truthy (prop f "Project__Name") = true →
  (∃ s, s ∈ project_summary fc ∧ name s = prop f "Project__Name")
  ∧ ∀ s, s ∈ project_summary fc → name s = prop f "Project__Name" →
         prop (process_feature (project_colours fc) f) "fillColor" = colour s.
Proof.
  intros Hf Ht. split.
  - exists (summarise fc (prop f "Project__Name")). split; [|done].
    apply list_elem_of_fmap. eexists. split; [done|].
    apply project_name_extracted; [done|]. by apply truthy_not_null.
  - intros s (p & -> & Hp)%list_elem_of_fmap Hname. simpl in Hname.
    rewrite process_feature_fillColor. unfold fill_colour.
    by rewrite Ht, Hname.
Qed.
End AssignerMore.

(** ** The enricher *)

Section EnricherMore.
Context {Geometry : Type}.
Implicit Types (f g : Feature Geometry) (fc : FeatureCollection Geometry).
Implicit Types (cm : gmap string JsValue).

Lemma other_props_lookup f (key : string) :
  key ≠ "fillColor" → key ≠ "description" →
  other_props f !! key = own_prop f key.
Proof.
  intros H1 H2. unfold other_props, own_prop.
  rewrite !lookup_delete_ne by done.
  destruct (properties f); [done|]. apply lookup_empty.
Qed.

Lemma prop_other_props f f' (key : string) :
  other_props f = other_props f' →
  key ≠ "fillColor" → key ≠ "description" →
  prop f key = prop f' key.
Proof.
  intros Heq H1 H2.
  by rewrite !prop_own, <- !other_props_lookup, Heq by done.
Qed.

(** One feature is enriched from its geometry and from the members other
    than the two derived ones. *)
Lemma process_feature_congr cm f f' :
  geometry f = geometry f' → other_props f = other_props f' →
  process_feature cm f = process_feature cm f'.
Proof.
  intros Hg Ho. unfold process_feature.
  assert (fill_colour cm f = fill_colour cm f') as ->
    by (unfold fill_colour; by rewrite (prop_other_props f f')).
  assert (description f = description f') as ->
    by (unfold description, project_line;
        by rewrite !(prop_other_props f f')).
  rewrite Hg. do 2 f_equal. apply map_eq. intros key.
  destruct (decide (key = "description")) as [->|Hd];
    [by rewrite !lookup_insert_eq|].
  rewrite !(lookup_insert_ne _ "description") by done.
  destruct (decide (key = "fillColor")) as [->|Hf];
    [by rewrite !lookup_insert_eq|].
  rewrite !lookup_insert_ne by done.
  assert (other_props f !! key = other_props f' !! key) as Hk by (by rewrite Ho).
  unfold other_props in Hk. by rewrite !lookup_delete_ne in Hk by done.
Qed.

(** X12. The enriched collection is determined by the geometries and by
    the members other than [fillColor] and [description]: derived members
    already present in the input are overwritten, and [properties: null]
    is treated like an empty object. *)
Theorem processFeatures_ignores_derived fc fc' cm :
  Forall2 (λ f f', geometry f = geometry f' ∧ other_props f = other_props f')
          fc fc' →
  processFeatures fc cm = processFeatures fc' cm.
Proof.
  unfold processFeatures. induction 1 as [|f f' fc fc' [Hg Ho] _ IH]; [done|].
  cbn [map]. by rewrite IH, (process_feature_congr cm f f').
Qed.

(** X13. Enriching an enriched collection, with the same or with another
    colour map, gives exactly what enriching the original collection with
    that map gives: a first pass leaves nothing behind. *)
Theorem processFeatures_absorbs fc cm cm' :
  processFeatures (processFeatures fc cm) cm' = processFeatures fc cm'.
Proof.
  unfold processFeatures. rewrite map_map. apply map_ext. intros f.
  apply process_feature_congr; [done|]. apply process_feature_other_props.
Qed.

Lemma project_features_process fc cm p :
  project_features (processFeatures fc cm) p
  = map (process_feature cm) (project_features fc p).
Proof.
  unfold project_features, processFeatures.
  induction fc as [|f fc IH]; [done|].
  cbn [map]. rewrite !filter_cons, process_feature_other by done.
  destruct (decide (Js.strict_eq (prop f "Project__Name") p = true));
    cbn [map]; by rewrite IH.
Qed.

Lemma total_area_process (fs : list (Feature Geometry)) cm :
  total_area (map (process_feature cm) fs) = total_area fs.
Proof.
  unfold total_area. generalize (JNum 0) at 2 4.
  induction fs as [|f fs IH]; intros acc; [done|].
  cbn [map fold_left]. by rewrite process_feature_other, IH by done.
Qed.

Lemma project_ids_process fc cm :
  project_ids (processFeatures fc cm) = project_ids fc.
Proof.
  unfold project_ids, processFeatures. rewrite map_map. do 2 f_equal.
  apply map_ext. intros f. by apply process_feature_other.
Qed.

(** X14. Extraction, colour assignment and summaries read nothing that
    enrichment writes: computed from the enriched collection they are
    what they are on the original one. *)
Theorem pipeline_unaffected_by_enrichment fc cm :
  project_ids (processFeatures fc cm) = project_ids fc
  ∧ project_colours (processFeatures fc cm) = project_colours fc
  ∧ project_summary (processFeatures fc cm) = project_summary fc.
Proof.
  assert (project_colours (processFeatures fc cm) = project_colours fc) as Hc
    by (unfold project_colours; by rewrite project_ids_process).
  split; [apply project_ids_process|]. split; [exact Hc|].
  unfold project_summary. rewrite project_ids_process.
  apply map_ext. intros p. unfold summarise.
  rewrite Hc, project_features_process, length_map, total_area_process.
  f_equal.
  destruct (project_features fc p) as [|f fs]; [done|].
  cbn [map]. simpl. by apply process_feature_other.
Qed.
End EnricherMore.

(** A feature with stale derived members and a feature with
    [properties: null] are enriched alike. *)
Lemma processFeatures_ignores_derived_example :
  Forall2 (λ f f', geometry f = geometry f' ∧ other_props f = other_props f')
          [paddock [("fillColor", JStr "red"); ("description", JNum 1)]]
          [mkFeature tt None]
  ∧ processFeatures
      [paddock [("fillColor", JStr "red"); ("description", JNum 1)]]
      (project_colours example_input)
    = processFeatures [mkFeature tt None] (project_colours example_input).
Proof.
  assert (Forall2 (λ f f' : Feature unit,
                     geometry f = geometry f' ∧ other_props f = other_props f')
            [paddock [("fillColor", JStr "red"); ("description", JNum 1)]]
            [mkFeature tt None]) as Hsame
    by (repeat constructor; vm_compute; reflexivity).
  split; [exact Hsame|].
  exact (processFeatures_ignores_derived _ _ _ Hsame).
Defined.

(** ** Totals of areas that are text *)

Section Coercion.
Context {Geometry : Type}.
Implicit Types (f : Feature Geometry) (fs : list (Feature Geometry)).

Lemma area_step_text (acc : JsValue) f :
  text_area f = true →
  ∃ t, Js.add acc (Js.or (prop f "area_acres") (JNum 0)) = JStr t.
Proof.
  unfold text_area, Js.or.
  destruct (prop f "area_acres") as [| | | | |s]; try discriminate.
  simpl. intros ->. destruct acc; simpl; by eexists.
Qed.

Lemma area_fold_text (t : string) fs :
  ∃ t', fold_left (λ sum f, Js.add sum (Js.or (prop f "area_acres") (JNum 0)))
                  fs (JStr t) = JStr t'.
Proof.
  revert t. induction fs as [|f fs IH]; intros t; [by eexists|].
  cbn [fold_left]. apply IH.
Qed.

Lemma area_fold_reaches_text (acc : JsValue) fs :
  existsb text_area fs = true →
  ∃ t, fold_left (λ sum f, Js.add sum (Js.or (prop f "area_acres") (JNum 0)))
                 fs acc = JStr t.
Proof.
  revert acc. induction fs as [|f fs IH]; intros acc; [done|].
  cbn [fold_left existsb]. destruct (text_area f) eqn:Ht.
  - intros _. destruct (area_step_text acc f Ht) as [t ->].
    apply area_fold_text.
  - simpl. apply IH.
Qed.

(** X15. When the [area_acres] of one of the features is a non-empty
    string, their total is a string and not a number: from that feature on
    [+] concatenates. *)
Theorem total_area_text fs :
  existsb text_area fs = true → ∃ t, total_area fs = JStr t.
Proof. apply area_fold_reaches_text. Qed.
End Coercion.

(** "12" acres and 5 acres make the text "0125". *)
Lemma total_area_text_example :
  existsb text_area text_area_input = true
  ∧ total_area text_area_input = JStr "0125"
  ∧ ∃ t, total_area text_area_input = JStr t.
Proof.
  assert (existsb text_area text_area_input = true) as Htext
    by (vm_compute; reflexivity).
  split; [exact Htext|]. split; [vm_compute; reflexivity|].
  exact (total_area_text text_area_input Htext).
Defined.

(** ** The caller [onMounted] *)

Section MountedFacts.
Context {Position : Type}.
Implicit Types (fc : FeatureCollection (Polygon Position)).

(** X16. The coordinates that [onMounted] collects from the enriched
    features for the centre of the map are those of the input features,
    whatever their properties: feature by feature, the positions of the
    outer ring, or one [undefined] for a polygon without rings. *)
Theorem mounted_coordinates_of_input fc :
  mounted_coordinates (processedFeatures fc)
  = fc ≫= (λ f, match coordinates (geometry f) with
                 | ring :: _ => Some <$> ring
                 | [] => [None]
                 end).
Proof.
  unfold mounted_coordinates, processedFeatures, processFeatures.
  change (map ?h fc) with (h <$> fc). rewrite list_fmap_bind.
  induction fc as [|f fc IH]; [done|].
  cbn [mbind list_bind]. rewrite <- IH. f_equal.
  unfold outer_ring_items. simpl. by destruct (coordinates (geometry f)).
Qed.
End MountedFacts.

(** ** Sample runs of the properties above *)

(** Projects "P0" and "P5" of the seven share a colour. *)
Lemma project_colours_cycle_example :
  NoDup (Js.to_string <$> project_ids seven_projects)
  ∧ project_ids seven_projects !! 0%nat = Some (JStr "P0")
  ∧ project_ids seven_projects !! 5%nat = Some (JStr "P5")
  ∧ Js.get_computed (project_colours seven_projects) (JStr "P0")
    = Js.get_computed (project_colours seven_projects) (JStr "P5").
Proof.
  assert (NoDup (Js.to_string <$> project_ids seven_projects)) as Hnd
    by (apply (bool_decide_unpack _); vm_compute; exact I).
  assert (project_ids seven_projects !! 0%nat = Some (JStr "P0")) as H0
    by (vm_compute; reflexivity).
  assert (project_ids seven_projects !! 5%nat = Some (JStr "P5")) as H5
    by (vm_compute; reflexivity).
  split; [exact Hnd|]. split; [exact H0|]. split; [exact H5|].
  apply (project_colours_cycle seven_projects 0 5 _ _ Hnd H0 H5).
  vm_compute; reflexivity.
Defined.

(** The seventh project gets the second palette colour. *)
Lemma project_colours_by_position_example :
  Forall (λ f, plain_name f = true) seven_projects
  ∧ project_ids seven_projects !! 6%nat = Some (JStr "P6")
  ∧ Js.get_computed (project_colours seven_projects) (JStr "P6")
    = Js.index colours (6 mod length colours)%nat.
Proof.
  assert (Forall (λ f, plain_name f = true) seven_projects) as Hplain
    by (repeat constructor).
  assert (project_ids seven_projects !! 6%nat = Some (JStr "P6")) as H6
    by (vm_compute; reflexivity).
  split; [exact Hplain|]. split; [exact H6|].
  exact (project_colours_by_position seven_projects 6 (JStr "P6") Hplain H6).
Defined.

(** The colour of the summary of the missing project in the worked
    example. *)
Lemma summary_colour_in_palette_example :
  mkSummary JUndefined (JStr "#D11149") 1 (JNum 1) JUndefined
    ∈ project_summary example_input
  ∧ ∃ c, c ∈ colours ∧ JStr "#D11149" = JStr c ∧ c ≠ fallback_colour.
Proof.
  assert (mkSummary JUndefined (JStr "#D11149") 1 (JNum 1) JUndefined
            ∈ project_summary example_input) as Hin
    by (apply (list_elem_of_lookup_2 _ 2%nat); vm_compute; reflexivity).
  split; [exact Hin|].
  exact (summary_colour_in_palette example_input _ Hin).
Defined.

(** The third paddock of the worked example and the summary of "B". *)
Lemma fill_colour_matches_summary_example :
  paddock [("Project__Name", JStr "B"); ("area_acres", JNum 3); ("owner", JStr "Z")]
    ∈ example_input
  ∧ ∃ s, s ∈ project_summary example_input ∧ name s = JStr "B".
Proof.
  assert (paddock [("Project__Name", JStr "B"); ("area_acres", JNum 3);
                   ("owner", JStr "Z")] ∈ example_input) as Hin
    by (apply (list_elem_of_lookup_2 _ 2%nat); reflexivity).
  split; [exact Hin|].
  apply (fill_colour_matches_summary example_input _ Hin).
  vm_compute; reflexivity.
Defined.

(** ** Shape of the summary list and of the fill colours *)

Section Shape.
Context {Geometry : Type}.
Implicit Types (f g : Feature Geometry) (fc : FeatureCollection Geometry).

Lemma length_first_occurrences (l : list JsValue) :
  (length (first_occurrences l) ≤ length l)%nat.
Proof.
  induction l as [|x r IH]; simpl; [done|].
  pose proof (length_filter (λ y, y ≠ x) (first_occurrences r)). lia.
Qed.

Lemma project_ids_nil fc :
  project_ids fc = [] ↔ Forall (λ f, prop f "Project__Name" = JNull) fc.
Proof.
  split.
  - intros Hnil. apply Forall_forall. intros f Hf.
    destruct (decide (prop f "Project__Name" = JNull)) as [|Hne]; [done|].
    pose proof (project_name_extracted fc f Hf Hne) as Hin.
    rewrite Hnil in Hin. by apply elem_of_nil in Hin.
  - intros Hall. destruct (project_ids fc) as [|v ids] eqn:Hids; [done|].
    assert (v ∈ project_ids fc) as Hv by (rewrite Hids; left).
    apply elem_of_project_ids in Hv as (Hne & f & Hf & Hname).
    rewrite Forall_forall in Hall. by rewrite (Hall f Hf) in Hname.
Qed.

(** X17. There is one summary per extracted project, so no two summaries
    have the same name and there are never more summaries than features;
    the list is empty exactly when every feature has [Project__Name:
    null] (features without the member do produce a summary). *)
Theorem project_summary_shape fc :
  name <$> project_summary fc = project_ids fc
  ∧ NoDup (name <$> project_summary fc)
  ∧ (length (project_summary fc) ≤ length fc)%nat
  ∧ (project_summary fc = []
     ↔ Forall (λ f, prop f "Project__Name" = JNull) fc).
Proof.
  assert (name <$> project_summary fc = project_ids fc) as Hnames.
  { unfold project_summary. rewrite <- list_fmap_compose.
    rewrite <- (list_fmap_id (project_ids fc)) at 2.
    by apply list_fmap_ext. }
  split; [exact Hnames|]. split; [rewrite Hnames; apply NoDup_project_ids|].
  split.
  - unfold project_summary. rewrite length_map, project_ids_first_occurrences.
    etrans; [apply length_first_occurrences|].
    etrans; [apply length_filter|]. by rewrite length_map.
  - rewrite <- project_ids_nil. unfold project_summary.
    split; [|by intros ->].
    intros Hnil. apply (f_equal length) in Hnil. rewrite length_map in Hnil.
    by apply length_zero_iff_nil.
Qed.

(** X18. In the enriched collection a feature is filled with the fallback
    colour exactly when its [Project__Name] is falsy: missing, [null] or
    the empty string for well-typed names. *)
Theorem fallback_iff_falsy fc f :
  f ∈ fc →
  prop (process_feature (project_colours fc) f) "fillColor" = JStr "#888888"
  ↔ Js.truthy (prop f "Project__Name") = false.
Proof.
  intros Hf. rewrite process_feature_fillColor. unfold fill_colour.
  destruct (Js.truthy (prop f "Project__Name")) eqn:Ht; [|done].
  split; [|done]. intros Hgrey. exfalso.
  apply truthy_not_null in Ht.
  destruct (project_colours_defined fc _ (project_name_extracted _ _ Hf Ht))
    as (c & Hc & Hlook).
  unfold Js.get_computed, Js.get in Hgrey. rewrite Hlook in Hgrey.
  simpl in Hgrey. injection Hgrey as ->.
  revert Hc. unfold colours. rewrite !elem_of_cons, elem_of_nil.
  intros [?|[?|[?|[?|[?|[]]]]]]; discriminate.
Qed.
End Shape.

(** The fourth paddock of the worked example is grey. *)
Lemma fallback_iff_falsy_example :
  paddock [("area_acres", JNum 1)] ∈ example_input
  ∧ prop (process_feature (project_colours example_input)
                          (paddock [("area_acres", JNum 1)])) "fillColor"
    = JStr "#888888".
Proof.
  assert (paddock [("area_acres", JNum 1)] ∈ example_input) as Hin
    by (apply (list_elem_of_lookup_2 _ 3%nat); reflexivity).
  split; [exact Hin|].
  apply (fallback_iff_falsy example_input _ Hin). vm_compute; reflexivity.
Defined.
